(** * AudioConfig.ts: the audio input configuration and its forwarding wrapper

    A shallow embedding of [bindings/js/src/sdk/Audio/AudioConfig.ts]: the static
    factories of the abstract class [AudioConfig] and the concrete class
    [AudioConfigImpl], which holds one [IAudioSource] in its private field
    [source] and implements [IAudioSource] itself.

    JavaScript objects live in a store indexed by addresses; a method body is
    a function from the store to a completion (a value returned or an error
    thrown) and the store it leaves behind. *)

From stdpp Require Import base option gmap strings list pretty.

Open Scope string_scope.

(** ** Values, errors, completions *)

Abbreviation loc := positive.

(** The classes named by the file: the ones it imports and the two it
    declares. [OtherClass] stands for any class declared elsewhere. *)
Inductive Class :=
  | PcmRecorder
  | MicAudioSource
  | FileAudioSource
  | PullAudioInputStreamImpl
  | PushAudioInputStreamImpl
  | PullAudioInputStreamCallback
  | AudioInputStream
  | File
  | OtherClass (name : string).

#[global] Instance Class_eq_dec : EqDecision Class.
Proof. solve_decision. Defined.

(** A runtime value: a primitive, or a reference to an object together with
    the classes on the object's prototype chain, nearest first. *)
Inductive JsValue :=
  | JsUndefined
  | JsNull
  | JsNumber (n : Z)
  | JsString (s : string)
  | JsObject (chain : list Class) (addr : loc).

#[global] Instance JsValue_eq_dec : EqDecision JsValue.
Proof. solve_decision. Defined.

(** [v instanceof C]: false on primitives, a walk along the prototype chain
    on objects. *)
Definition instanceof (v : JsValue) (C : Class) : bool :=
  match v with
  | JsObject chain _ => bool_decide (C ∈ chain)
  | _ => false
  end.

(** Errors that can be thrown or can reject a promise. [Error msg] is
    [new Error(msg)]; [TypeError] is what an engine raises on a call of
    something that is not a function and on a property read on [undefined]
    or [null] (the text of its message depends on the engine, the value and
    the member, and is left out); [RangeError] is what an engine raises when
    the call stack is exhausted; the last three are the error kinds of the
    lifecycle protocol. *)
Inductive JsError :=
  | Error (msg : string)
  | TypeError
  | RangeError (msg : string)
  | InvalidStateError
  | ActivationError
  | DeactivationError.

#[global] Instance JsError_eq_dec : EqDecision JsError.
Proof. solve_decision. Defined.

(** The error of the stream factory, line 52: [throw new Error("Not Supported Type")]. *)
Definition UnsupportedInputError : JsError := Error "Not Supported Type".

Definition stack_exhausted : JsError := RangeError "Maximum call stack size exceeded".

Inductive completion (A : Type) :=
  | Normal (a : A)
  | Throw (e : JsError).
Arguments Normal {A} a.
Arguments Throw {A} e.

(** A promise, observed once the operation that made it is over. *)
Inductive Promise (A : Type) :=
  | Resolved (a : A)
  | Rejected (e : JsError)
  | Pending.
Arguments Resolved {A} a.
Arguments Rejected {A} e.
Arguments Pending {A}.

Record IAudioStreamNode := { node_id : string }.
Record EventSource := { channel : string }.

(** ** The monad of method bodies: a store [S], a completion *)

Definition M (S A : Type) : Type := S → completion A * S.

#[global] Instance M_ret {S} : MRet (M S) := λ A a s, (Normal a, s).
#[global] Instance M_bind {S} : MBind (M S) := λ A B f m s,
  match m s with
  | (Normal a, s') => f a s'
  | (Throw e, s') => (Throw e, s')
  end.

Definition throw {S A} (e : JsError) : M S A := λ s, (Throw e, s).

(** ** The interface [IAudioSource] and what the file needs from the classes
       it imports *)

Module IAudioSource.

(** The six members of the interface, as functions on the state [T] of an
    object. Five are methods: an object that lacks one throws [TypeError]
    when it is called. [Events] is a property, read without a call: the
    getter of an object that has it runs and gives the event source, and
    [None] is an object that has no such property, where the read gives
    [undefined]. A member is given as a function of the state of its own
    object; what an implementation does to other objects lies outside this
    file and is not described. *)
Class t (T : Type) := {
  Id : T → completion string * T;
  TurnOn : T → completion (Promise bool) * T;
  Attach : string → T → completion (Promise IAudioStreamNode) * T;
  Detach : string → T → completion unit * T;
  TurnOff : T → completion (Promise bool) * T;
  Events : T → completion (option EventSource) * T;
}.

End IAudioSource.

(** The imported classes are declared outside this file: the state their
    constructors build (from the arguments and the address of the new
    object, which stands for its identity) and the classes they extend are
    parameters. *)
Class Imports (T : Type) := {
  construct : Class → list JsValue → loc → T;
  ancestors : Class → list Class;
}.

Section Store.
Context {T : Type}.

(** [new C(args)]: the object is placed at an unused address. *)
Definition new `{!Imports T} (C : Class) (args : list JsValue) : M (gmap loc T) JsValue :=
  λ h, let l := fresh (dom h) in
       (Normal (JsObject (C :: ancestors C) l), <[l := construct C args l]> h).

(** [v.m(...)] for a method [m] of the interface, on the object [v] refers
    to. A primitive, or a reference to nothing, has no such method, and the
    call throws [TypeError]. *)
Definition invoke {A} (v : JsValue) (m : T → completion A * T) : M (gmap loc T) A :=
  λ h, match v with
       | JsObject _ l =>
           match h !! l with
           | Some o => let '(r, o') := m o in (r, <[l := o']> h)
           | None => (Throw TypeError, h)
           end
       | _ => (Throw TypeError, h)
       end.

(** [v.p] for a property [p] of the interface: a read, not a call. On
    [undefined] and [null] the read throws [TypeError]; on a number or a
    string, which have no such property, and on a reference to nothing, it
    gives [undefined]; on an object the getter [p] runs. *)
Definition read {A} (v : JsValue) (p : T → completion (option A) * T)
  : M (gmap loc T) (option A) :=
  λ h, match v with
       | JsUndefined | JsNull => (Throw TypeError, h)
       | JsNumber _ | JsString _ => (Normal None, h)
       | JsObject _ l =>
           match h !! l with
           | Some o => let '(r, o') := p o in (r, <[l := o']> h)
           | None => (Normal None, h)
           end
       end.

End Store.

(** ** class AudioConfigImpl (lines 66-101) *)

Module AudioConfigImpl.

(** The instance fields: [private source: IAudioSource]. *)
Record t := { source : JsValue }.

(** A method runs on the fields of [this] and on the store. *)
Record State (T : Type) := { this : t; heap : gmap loc T }.
Arguments this {T} _.
Arguments heap {T} _.

(** Lines 69-72: [super(); this.source = source;] *)
Definition constructor {S} (source : JsValue) : M S t :=
  mret {| source := source |}.

Section Methods.
Context {T : Type} `{!IAudioSource.t T}.

(** Reading [this.source]. *)
Definition this_source : M (State T) JsValue :=
  λ st, (Normal (source (this st)), st).

(** A call on the object [v] refers to, from inside a method. *)
Definition call {A} (v : JsValue) (m : T → completion A * T) : M (State T) A :=
  λ st, let '(r, h) := invoke v m (heap st) in
        (r, {| this := this st; heap := h |}).

(** Lines 74-76. The promise [TurnOff] returns is dropped. *)
Definition close : M (State T) unit :=
  src ← this_source; _ ← call src IAudioSource.TurnOff; mret ().

(** Lines 78-80. *)
Definition Id : M (State T) string :=
  src ← this_source; call src IAudioSource.Id.

(** Lines 82-84. *)
Definition TurnOn : M (State T) (Promise bool) :=
  src ← this_source; call src IAudioSource.TurnOn.

(** Lines 86-88. *)
Definition Attach (audioNodeId : string) : M (State T) (Promise IAudioStreamNode) :=
  src ← this_source; call src (IAudioSource.Attach audioNodeId).

(** Lines 90-92: [return this.Detach(audioNodeId);]. The method calls
    itself; [stack] is the number of frames the engine can still push, and
    a call with none left raises [RangeError]. *)
Fixpoint Detach (stack : nat) (audioNodeId : string) : M (State T) unit :=
  match stack with
  | O => throw stack_exhausted
  | S stack' => Detach stack' audioNodeId
  end.

(** Lines 94-96. *)
Definition TurnOff : M (State T) (Promise bool) :=
  src ← this_source; call src IAudioSource.TurnOff.

(** A property read on the object [v] refers to, from inside a method. *)
Definition get {A} (v : JsValue) (p : T → completion (option A) * T)
  : M (State T) (option A) :=
  λ st, let '(r, h) := read v p (heap st) in
        (r, {| this := this st; heap := h |}).

(** Lines 98-100: the getter [Events], [return this.source.Events;]: a
    property read, [None] when the read gives [undefined]. *)
Definition Events : M (State T) (option EventSource) :=
  src ← this_source; get src IAudioSource.Events.

(** What section 4.1 of the specification asks of [Detach], and what the
    sibling methods do: hand the call to the wrapped source. *)
Definition Detach_forwarded (audioNodeId : string) : M (State T) unit :=
  src ← this_source; call src (IAudioSource.Detach audioNodeId).

End Methods.
End AudioConfigImpl.

(** ** abstract class AudioConfig: the static factories (lines 15-60) *)

Module AudioConfig.
Section Factories.
Context {T : Type} `{!Imports T}.

(** Lines 21-24. *)
Definition fromDefaultMicrophoneInput : M (gmap loc T) AudioConfigImpl.t :=
  pcmRecorder ← new PcmRecorder [];
  src ← new MicAudioSource [pcmRecorder];
  AudioConfigImpl.constructor src.

(** Lines 32-34. The parameter type [File] is erased at run time: the body
    receives whatever value the caller passes. *)
Definition fromWavFileInput (file : JsValue) : M (gmap loc T) AudioConfigImpl.t :=
  src ← new FileAudioSource [file];
  AudioConfigImpl.constructor src.

(** Lines 43-53. *)
Definition fromStreamInput (audioStream : JsValue) : M (gmap loc T) AudioConfigImpl.t :=
  if instanceof audioStream PullAudioInputStreamCallback then
    src ← new PullAudioInputStreamImpl [audioStream];
    AudioConfigImpl.constructor src
  else if instanceof audioStream AudioInputStream then
    AudioConfigImpl.constructor audioStream
  else
    throw (Error "Not Supported Type").

End Factories.
End AudioConfig.

(** ** Calls on a handle, one after the other *)

(** What a call hands back. *)
Inductive Value :=
  | VUndefined
  | VString (s : string)
  | VPromiseBool (p : Promise bool)
  | VPromiseNode (p : Promise IAudioStreamNode)
  | VEvents (e : EventSource).

(** The members [AudioConfigImpl] hands to [this.source]. *)
Inductive Member :=
  | MId
  | MTurnOn
  | MAttach (audioNodeId : string)
  | MTurnOff
  | MEvents.

Inductive Op :=
  | OpClose
  | OpDetach (audioNodeId : string)
  | OpMember (m : Member).

(** What a read of [Events] hands back: the event source, or [undefined]. *)
Definition events_value (e : option EventSource) : Value :=
  match e with
  | Some e => VEvents e
  | None => VUndefined
  end.

Definition returning {S A} (inj : A → Value) (m : M S A) : M S Value :=
  a ← m; mret (inj a).

Section Calls.
Context {T : Type} `{!IAudioSource.t T}.

(** The member of the wrapped object itself. *)
Definition source_member (m : Member) : M T Value :=
  match m with
  | MId => returning VString IAudioSource.Id
  | MTurnOn => returning VPromiseBool IAudioSource.TurnOn
  | MAttach n => returning VPromiseNode (IAudioSource.Attach n)
  | MTurnOff => returning VPromiseBool IAudioSource.TurnOff
  | MEvents => returning events_value IAudioSource.Events
  end.

(** The like-named member of the wrapper. *)
Definition member (m : Member) : M (AudioConfigImpl.State T) Value :=
  match m with
  | MId => returning VString AudioConfigImpl.Id
  | MTurnOn => returning VPromiseBool AudioConfigImpl.TurnOn
  | MAttach n => returning VPromiseNode (AudioConfigImpl.Attach n)
  | MTurnOff => returning VPromiseBool AudioConfigImpl.TurnOff
  | MEvents => returning events_value AudioConfigImpl.Events
  end.

Definition exec (stack : nat) (o : Op) : M (AudioConfigImpl.State T) Value :=
  match o with
  | OpClose => returning (λ _, VUndefined) AudioConfigImpl.close
  | OpDetach n => returning (λ _, VUndefined) (AudioConfigImpl.Detach stack n)
  | OpMember m => member m
  end.

(** The state after a sequence of calls; a call that throws is caught by
    the caller, who goes on with the next. *)
Definition run (stack : nat) (ops : list Op) (st : AudioConfigImpl.State T)
  : AudioConfigImpl.State T :=
  foldl (λ st o, (exec stack o st).2) st ops.

End Calls.

(** ** The audio source behind a handle *)

Module AudioSource.

(** Modelled from the spec: SourceState, section 3; the implementations of
    [IAudioSource] that carry it are not in this file. *)
Inductive SourceState := Idle | Starting | Running | Stopping | Stopped | Faulted.

#[global] Instance SourceState_eq_dec : EqDecision SourceState.
Proof. solve_decision. Defined.

(** Modelled from the spec: the four Producer variants of section 2. *)
Inductive ProducerKind := Microphone | FileReader | PushStream | PullStream.

(** Modelled from the spec: the Producer of section 2, an external
    collaborator of which the source sees a start and a stop primitive.
    Whether these succeed is the producer's affair (two flags); the calls it
    receives are counted. *)
Record Producer := {
  kind : ProducerKind;
  start_succeeds : bool;
  stop_succeeds : bool;
  start_calls : nat;
  stop_calls : nat;
}.

(** Modelled from the spec: Event, section 3, the tagged record sent on the
    source's channel, with kind Started, Stopped or Error. *)
Inductive EventKind := EvStarted | EvStopped | EvError.

Record Event := { ev_source : string; ev_kind : EventKind; ev_payload : string }.

(** Modelled from the spec: the AudioSource of sections 3 and 4.1, the state
    machine behind [IAudioSource], whose implementations ([MicAudioSource],
    [FileAudioSource], the stream classes) are not in this file. [sid] is
    the SourceId, [registry] the AttachmentRegistry, [emitted] the events
    sent to the channel and [transitions] the states entered, latest first. *)
Record t := {
  sid : string;
  state : SourceState;
  registry : gmap string IAudioStreamNode;
  producer : Producer;
  emitted : list Event;
  transitions : list SourceState;
}.

(** Modelled from the spec: a transition of the state machine; the state
    entered is recorded. *)
Definition goto (s : SourceState) (a : t) : t :=
  {| sid := sid a; state := s; registry := registry a; producer := producer a;
     emitted := emitted a; transitions := s :: transitions a |}.

(** Modelled from the spec: emission of an event to the channel, section
    4.3, in the order of the transitions. *)
Definition emit (k : EventKind) (payload : string) (a : t) : t :=
  {| sid := sid a; state := state a; registry := registry a; producer := producer a;
     emitted := {| ev_source := sid a; ev_kind := k; ev_payload := payload |} :: emitted a;
     transitions := transitions a |}.

(** Modelled from the spec: updates of the registry and of the producer,
    both owned by the source alone (section 5). *)
Definition with_registry (r : gmap string IAudioStreamNode) (a : t) : t :=
  {| sid := sid a; state := state a; registry := r; producer := producer a;
     emitted := emitted a; transitions := transitions a |}.

Definition with_producer (p : Producer) (a : t) : t :=
  {| sid := sid a; state := state a; registry := registry a; producer := p;
     emitted := emitted a; transitions := transitions a |}.

(** Modelled from the spec: the start and stop primitives of the Producer,
    as the source sees them: one more call received. *)
Definition start (p : Producer) : Producer :=
  {| kind := kind p; start_succeeds := start_succeeds p; stop_succeeds := stop_succeeds p;
     start_calls := S (start_calls p); stop_calls := stop_calls p |}.

Definition stop (p : Producer) : Producer :=
  {| kind := kind p; start_succeeds := start_succeeds p; stop_succeeds := stop_succeeds p;
     start_calls := start_calls p; stop_calls := S (stop_calls p) |}.

(** Modelled from the spec: the outcome of a Producer start, section 4.1:
    on success move to Running, on failure move to Faulted; section 7: the
    failure is also sent as an Error event. *)
Definition started (a : t) : bool * t :=
  if start_succeeds (producer a)
  then (true, emit EvStarted "started" (goto Running a))
  else (false, emit EvError "ActivationError" (goto Faulted a)).

(** Modelled from the spec: activation, section 4.1: transition to
    Starting, invoke Producer start. *)
Definition activate (a : t) : bool * t :=
  started (with_producer (start (producer a)) (goto Starting a)).

(** Modelled from the spec: the outcome of a Producer stop: Stopped with an
    empty registry (section 3: the registry is empty in Stopped and Faulted),
    or Faulted and an Error event (section 7). *)
Definition stopped (a : t) : bool * t :=
  if stop_succeeds (producer a)
  then (true, emit EvStopped "stopped" (goto Stopped (with_registry ∅ a)))
  else (false, emit EvError "DeactivationError" (goto Faulted (with_registry ∅ a))).

(** Modelled from the spec: deactivation, section 4.1: transition to
    Stopping, invoke Producer stop, then Stopped. *)
Definition deactivate (a : t) : bool * t :=
  stopped (with_producer (stop (producer a)) (goto Stopping a)).

(** Modelled from the spec: an entry of the registry is created on Attach,
    under the NodeId the caller supplies (section 3); the call that joins
    gets a handle, the call whose activation failed gets ActivationError. *)
Definition register (nodeId : string) (a : t) : t :=
  with_registry (<[nodeId := {| node_id := nodeId |}]> (registry a)) a.

Definition joined (nodeId : string) (oka : bool * t) : Promise IAudioStreamNode * t :=
  if oka.1 then (Resolved {| node_id := nodeId |}, register nodeId oka.2)
  else (Rejected ActivationError, oka.2).

(** Modelled from the spec: Attach, section 4.1. From Idle the producer is
    started and the node registered on success; in Running the node joins
    without a second start; a caller that arrives during Starting waits for
    the outcome of the start in flight and joins or fails with it; in
    Stopping, Stopped and Faulted the call fails with InvalidStateError. *)
Definition Attach (nodeId : string) (a : t) : Promise IAudioStreamNode * t :=
  match state a with
  | Idle => joined nodeId (activate a)
  | Starting => joined nodeId (started a)
  | Running => joined nodeId (true, a)
  | Stopping | Stopped | Faulted => (Rejected InvalidStateError, a)
  end.

(** Modelled from the spec: Detach, section 4.1: removes the node from the
    registry if present, and deactivates when the registry becomes empty;
    for a node that is not registered it is a no-op (the choice section 3
    leaves open). *)
Definition Detach (nodeId : string) (a : t) : t :=
  match registry a !! nodeId with
  | None => a
  | Some _ =>
      let a' := with_registry (delete nodeId (registry a)) a in
      if bool_decide (registry a' = ∅) then (deactivate a').2 else a'
  end.

(** Modelled from the spec: the promise of TurnOn and TurnOff: failure of
    the producer reaches the caller of the operation (section 7). *)
Definition settled (oka : bool * t) (e : JsError) : Promise bool * t :=
  if oka.1 then (Resolved true, oka.2) else (Rejected e, oka.2).

(** Modelled from the spec: TurnOn, section 4.1: from Idle the activation
    path of the first Attach, registering no node; section 7: InvalidStateError
    from a terminal or incompatible state. *)
Definition TurnOn (a : t) : Promise bool * t :=
  match state a with
  | Idle => settled (activate a) ActivationError
  | Starting => settled (started a) ActivationError
  | Running => (Resolved true, a)
  | Stopping | Stopped | Faulted => (Rejected InvalidStateError, a)
  end.

(** Modelled from the spec: TurnOff, section 4.1: forces deactivation
    whatever the attachment count, clears the registry and transitions to
    Stopped. Stopped and Faulted are terminal (section 3) and a second stop
    is a pure no-op (section 8); a stop already in flight is awaited, not
    issued again, and a start in flight is followed by a stop once it
    resolves (section 5). *)
Definition TurnOff (a : t) : Promise bool * t :=
  match state a with
  | Idle | Running => settled (deactivate a) DeactivationError
  | Starting =>
      let '(ok, a') := started a in
      if ok then settled (deactivate a') DeactivationError
      else (Rejected ActivationError, a')
  | Stopping => settled (stopped a) DeactivationError
  | Stopped | Faulted => (Resolved true, a)
  end.

(** Modelled from the spec: Id, section 4.1: a pure accessor, available in
    every state. *)
Definition Id (a : t) : string := sid a.

(** Modelled from the spec: Events, section 4.1: the subscription point of
    the source's own channel, available in every state. *)
Definition Events (a : t) : EventSource := {| channel := sid a |}.

(** Modelled from the spec: a source as section 3 has it at construction:
    Idle, nothing registered, nothing emitted. *)
Definition create (id : string) (k : ProducerKind) : t :=
  {| sid := id; state := Idle; registry := ∅;
     producer := {| kind := k; start_succeeds := true; stop_succeeds := true;
                    start_calls := 0; stop_calls := 0 |};
     emitted := []; transitions := [] |}.

End AudioSource.

(** ** The objects of the store when the sources are the ones above *)

(** Modelled from the spec: the objects the imported classes build: an
    audio source as above, or an object without the members of
    [IAudioSource], on which a call of a method throws and a read of
    [Events] gives [undefined]. *)
Inductive Object :=
  | Source (a : AudioSource.t)
  | Plain (C : Class) (args : list JsValue).

(** Modelled from the spec: a method of [IAudioSource] on an object: the
    operation of the audio source, or [TypeError] on an object without it. *)
Definition on_source {A} (f : AudioSource.t → A * AudioSource.t) (o : Object)
  : completion A * Object :=
  match o with
  | Source a => let '(r, a') := f a in (Normal r, Source a')
  | Plain _ _ => (Throw TypeError, o)
  end.

(** Modelled from the spec: a property of [IAudioSource] read on an object:
    the value the audio source gives, or [undefined] on an object without
    the property. *)
Definition on_property {A} (f : AudioSource.t → A) (o : Object)
  : completion (option A) * Object :=
  match o with
  | Source a => (Normal (Some (f a)), o)
  | Plain _ _ => (Normal None, o)
  end.

(** Modelled from the spec: the six operations of section 4.1 as the
    members of the interface; the failures of Attach, TurnOn and TurnOff
    arrive in the promise the member returns. *)
#[global] Instance Object_IAudioSource : IAudioSource.t Object := {|
  IAudioSource.Id := on_source (λ a, (AudioSource.Id a, a));
  IAudioSource.TurnOn := on_source AudioSource.TurnOn;
  IAudioSource.Attach n := on_source (AudioSource.Attach n);
  IAudioSource.Detach n := on_source (λ a, ((), AudioSource.Detach n a));
  IAudioSource.TurnOff := on_source AudioSource.TurnOff;
  IAudioSource.Events := on_property AudioSource.Events;
|}.

(** Modelled from the spec: the SourceId, unique and assigned at
    construction (section 3): here derived from the address of the object. *)
Definition source_id (l : loc) : string := "source-" +:+ pretty (Npos l).

(** Modelled from the spec: which Producer variant (section 2) each imported
    class stands for; any other class builds an object without the members
    of [IAudioSource]. *)
#[global] Instance Object_Imports : Imports Object := {|
  construct C args l :=
    match C with
    | MicAudioSource => Source (AudioSource.create (source_id l) AudioSource.Microphone)
    | FileAudioSource => Source (AudioSource.create (source_id l) AudioSource.FileReader)
    | PullAudioInputStreamImpl => Source (AudioSource.create (source_id l) AudioSource.PullStream)
    | PushAudioInputStreamImpl => Source (AudioSource.create (source_id l) AudioSource.PushStream)
    | _ => Plain C args
    end;
  ancestors C := [];
|}.

(** The state of a handle on the source [a], held at address [l]. *)
Definition handle_on (chain : list Class) (l : loc) (a : AudioSource.t)
  (h : gmap loc Object) : AudioConfigImpl.State Object :=
  {| AudioConfigImpl.this := {| AudioConfigImpl.source := JsObject chain l |};
     AudioConfigImpl.heap := <[l := Source a]> h |}.

(** ** Concrete handles used in the examples *)

(** A microphone source with the node ["a"] attached. *)
Definition mic_running : AudioSource.t :=
  (AudioSource.Attach "a" (AudioSource.create "mic" AudioSource.Microphone)).2.

(** The same source over a producer whose stop fails. *)
Definition mic_stop_fails : AudioSource.t :=
  AudioSource.with_producer
    {| AudioSource.kind := AudioSource.Microphone;
       AudioSource.start_succeeds := true; AudioSource.stop_succeeds := false;
       AudioSource.start_calls := 1; AudioSource.stop_calls := 0 |}
    mic_running.

Definition source_at (l : loc) (st : AudioConfigImpl.State Object) : option AudioSource.t :=
  match AudioConfigImpl.heap st !! l with
  | Some (Source a) => Some a
  | _ => None
  end.

(** An object whose prototype chain holds both classes. *)
Definition both_shapes : JsValue :=
  JsObject [OtherClass "Hybrid"; PullAudioInputStreamCallback; AudioInputStream] 7.

(** ** The audio source seen through a handle *)

(** The source after a call on its handle: [close] and [TurnOff] reach its
    [TurnOff], [Detach] never reaches it. *)
Definition after (o : Op) (a : AudioSource.t) : AudioSource.t :=
  match o with
  | OpClose => (AudioSource.TurnOff a).2
  | OpDetach _ => a
  | OpMember MId => a
  | OpMember MTurnOn => (AudioSource.TurnOn a).2
  | OpMember (MAttach n) => (AudioSource.Attach n a).2
  | OpMember MTurnOff => (AudioSource.TurnOff a).2
  | OpMember MEvents => a
  end.

Definition terminal (a : AudioSource.t) : Prop :=
  AudioSource.state a = AudioSource.Stopped ∨ AudioSource.state a = AudioSource.Faulted.

(** How many times the source has entered the state [s]. *)
Definition entered (s : AudioSource.SourceState) (a : AudioSource.t) : nat :=
  length (filter (λ x, x = s) (AudioSource.transitions a)).

(** ** Sequences of calls and what they return *)

(** The address a value refers to, when it is an object. *)
Definition address (v : JsValue) : option loc :=
  match v with
  | JsObject _ l => Some l
  | _ => None
  end.

Definition is_Detach (o : Op) : bool :=
  match o with
  | OpDetach _ => true
  | _ => false
  end.

(** What [close] makes of the completion of [TurnOff]: the promise is
    dropped, a throw goes through. *)
Definition dropped {A} (c : completion A) : completion unit :=
  match c with
  | Normal _ => Normal ()
  | Throw e => Throw e
  end.

Section Outcomes.
Context {T : Type} `{!IAudioSource.t T}.

(** The completions of a sequence of calls on a handle, in order. *)
Fixpoint outcomes (stack : nat) (ops : list Op) (st : AudioConfigImpl.State T)
  : list (completion Value) :=
  match ops with
  | [] => []
  | o :: ops' => (exec stack o st).1 :: outcomes stack ops' (exec stack o st).2
  end.



End Outcomes.

(** Whether a value is [undefined] or [null], on which a property read
    throws. *)
Definition nullish (v : JsValue) : bool :=
  match v with
  | JsUndefined | JsNull => true
  | _ => false
  end.

(** The objects that are in the store [h'] and were not in [h]. *)
Definition constructed {T} (h h' : gmap loc T) : gset loc := dom h' ∖ dom h.

(** A handle built over the number 42, next to a source it does not refer
    to. *)
Definition handle_on_number : AudioConfigImpl.State Object :=
  {| AudioConfigImpl.this := {| AudioConfigImpl.source := JsNumber 42 |};
     AudioConfigImpl.heap := {[ 1%positive := Source mic_running ]} |}.

(** A push stream of the application, held at address 3. *)
Definition push_stream_chain : list Class := [PushAudioInputStreamImpl; AudioInputStream].

Definition push_stream_store : gmap loc Object :=
  {[ 3%positive := Source (AudioSource.create "push" AudioSource.PushStream) ]}.

(** * Properties *)

(** ** Helper facts on the store *)

Lemma constructed_insert {T : Type} (h : gmap loc T) (l : loc) (x : T) :
  h !! l = None → constructed h (<[l := x]> h) = {[ l ]}.
Proof.
  intros Hl. unfold constructed.
  rewrite dom_insert_L, difference_union_distr_l_L, difference_diag_L, (right_id_L ∅ (∪)).
  apply difference_disjoint_L, disjoint_singleton_l. by apply not_elem_of_dom.
Qed.

Lemma constructed_same {T : Type} (h : gmap loc T) : constructed h h = ∅.
Proof. apply difference_diag_L. Qed.

Section StoreFacts.
Context {T : Type}.

Lemma fresh_unused (h : gmap loc T) : h !! fresh (dom h) = None.
Proof. apply not_elem_of_dom, is_fresh. Qed.

Lemma new_spec `{!Imports T} (C : Class) (args : list JsValue) (h : gmap loc T) :
  new C args h =
    (Normal (JsObject (C :: ancestors C) (fresh (dom h))),
     <[fresh (dom h) := construct C args (fresh (dom h))]> h).
Proof. reflexivity. Qed.

Lemma invoke_object {A} (m : T → completion A * T) chain l (o : T) (h : gmap loc T) :
  invoke (JsObject chain l) m (<[l := o]> h) = ((m o).1, <[l := (m o).2]> h).
Proof.
  unfold invoke. rewrite lookup_insert_eq.
  destruct (m o) as [r o']; simpl. by rewrite insert_insert_eq.
Qed.

Lemma call_object `{!IAudioSource.t T} {A} (m : T → completion A * T) cfg chain l o h :
  AudioConfigImpl.call (JsObject chain l) m
    {| AudioConfigImpl.this := cfg; AudioConfigImpl.heap := <[l := o]> h |} =
  ((m o).1, {| AudioConfigImpl.this := cfg; AudioConfigImpl.heap := <[l := (m o).2]> h |}).
Proof.
  unfold AudioConfigImpl.call. cbn [AudioConfigImpl.heap AudioConfigImpl.this].
  by rewrite invoke_object.
Qed.

Lemma call_keeps_this `{!IAudioSource.t T} {A} v (m : T → completion A * T) st :
  AudioConfigImpl.this (AudioConfigImpl.call v m st).2 = AudioConfigImpl.this st.
Proof. unfold AudioConfigImpl.call. by destruct (invoke v m _). Qed.

Lemma read_object {A} (p : T → completion (option A) * T) chain l (o : T)
    (h : gmap loc T) :
  read (JsObject chain l) p (<[l := o]> h) = ((p o).1, <[l := (p o).2]> h).
Proof.
  unfold read. rewrite lookup_insert_eq.
  destruct (p o) as [r o']; simpl. by rewrite insert_insert_eq.
Qed.

Lemma get_object `{!IAudioSource.t T} {A} (p : T → completion (option A) * T)
    cfg chain l o h :
  AudioConfigImpl.get (JsObject chain l) p
    {| AudioConfigImpl.this := cfg; AudioConfigImpl.heap := <[l := o]> h |} =
  ((p o).1, {| AudioConfigImpl.this := cfg; AudioConfigImpl.heap := <[l := (p o).2]> h |}).
Proof.
  unfold AudioConfigImpl.get. cbn [AudioConfigImpl.heap AudioConfigImpl.this].
  by rewrite read_object.
Qed.

Lemma get_keeps_this `{!IAudioSource.t T} {A} v (p : T → completion (option A) * T) st :
  AudioConfigImpl.this (AudioConfigImpl.get v p st).2 = AudioConfigImpl.this st.
Proof. unfold AudioConfigImpl.get. by destruct (read v p _). Qed.

Lemma Detach_unwinds `{!IAudioSource.t T} stack n (st : AudioConfigImpl.State T) :
  AudioConfigImpl.Detach stack n st = (Throw stack_exhausted, st).
Proof. induction stack as [|k IH]; [reflexivity | exact IH]. Qed.

Lemma exec_keeps_this `{!IAudioSource.t T} stack o (st : AudioConfigImpl.State T) :
  AudioConfigImpl.this (exec stack o st).2 = AudioConfigImpl.this st.
Proof.
  destruct o as [|n|m]; simpl; unfold returning, mbind, M_bind.
  - unfold AudioConfigImpl.close, mbind, M_bind, AudioConfigImpl.this_source.
    pose proof (call_keeps_this (AudioConfigImpl.source (AudioConfigImpl.this st))
                  IAudioSource.TurnOff st) as Hk.
    destruct (AudioConfigImpl.call _ _ st) as [[p|e] st']; exact Hk.
  - by rewrite Detach_unwinds.
  - destruct m; simpl; unfold returning, mbind, M_bind;
      unfold AudioConfigImpl.Id, AudioConfigImpl.TurnOn, AudioConfigImpl.Attach,
        AudioConfigImpl.TurnOff, AudioConfigImpl.Events,
        mbind, M_bind, AudioConfigImpl.this_source;
      match goal with
      | |- context [AudioConfigImpl.call ?v ?f st] =>
          pose proof (call_keeps_this v f st) as Hk;
          destruct (AudioConfigImpl.call v f st) as [[p|e] st']; exact Hk
      | |- context [AudioConfigImpl.get ?v ?f st] =>
          pose proof (get_keeps_this v f st) as Hk;
          destruct (AudioConfigImpl.get v f st) as [[p|e] st']; exact Hk
      end.
Qed.

Lemma run_keeps_this `{!IAudioSource.t T} stack ops (st : AudioConfigImpl.State T) :
  AudioConfigImpl.this (run stack ops st) = AudioConfigImpl.this st.
Proof.
  revert st. induction ops as [|o ops IH]; intros st; [reflexivity|].
  change (run stack (o :: ops) st) with (run stack ops (exec stack o st).2).
  rewrite IH. apply exec_keeps_this.
Qed.

End StoreFacts.

Example mic_running_state :
  AudioSource.state mic_running = AudioSource.Running
  ∧ AudioSource.registry mic_running = {[ "a" := {| node_id := "a" |} ]}
  ∧ AudioSource.start_calls (AudioSource.producer mic_running) = 1.
Proof. by vm_compute. Qed.

(** ** The factories *)

(** C2, as the code has it. [fromStreamInput] has exactly three outcomes,
    told apart by the two [instanceof] tests in the order of the code. For a
    pull-style callback object exactly one object is constructed, a new
    [PullAudioInputStreamImpl] over the argument, and the handle wraps it.
    Otherwise, for a push-style stream object, nothing is constructed: the
    handle wraps the argument itself, whatever object it refers to, and the
    store is left as it was. For any other argument the call throws
    [Error("Not Supported Type")], the UnsupportedInputError, with nothing
    constructed and no handle returned. *)
Theorem fromStreamInput_dispatch (T : Type) (I : Imports T) (audioStream : JsValue)
    (h : gmap loc T) :
  let l := fresh (dom h) in
  (instanceof audioStream PullAudioInputStreamCallback = true
   ∧ h !! l = None
   ∧ AudioConfig.fromStreamInput audioStream h =
       (Normal {| AudioConfigImpl.source :=
                    JsObject (PullAudioInputStreamImpl :: ancestors PullAudioInputStreamImpl) l |},
        <[l := construct PullAudioInputStreamImpl [audioStream] l]> h)
   ∧ constructed h (AudioConfig.fromStreamInput audioStream h).2 = {[ l ]})
  ∨ (instanceof audioStream PullAudioInputStreamCallback = false
     ∧ instanceof audioStream AudioInputStream = true
     ∧ AudioConfig.fromStreamInput audioStream h =
         (Normal {| AudioConfigImpl.source := audioStream |}, h)
     ∧ constructed h (AudioConfig.fromStreamInput audioStream h).2 = ∅)
  ∨ (instanceof audioStream PullAudioInputStreamCallback = false
     ∧ instanceof audioStream AudioInputStream = false
     ∧ AudioConfig.fromStreamInput audioStream h = (Throw UnsupportedInputError, h)
     ∧ constructed h (AudioConfig.fromStreamInput audioStream h).2 = ∅).
Proof.
  intros l. unfold AudioConfig.fromStreamInput.
  destruct (instanceof audioStream PullAudioInputStreamCallback) eqn:Hpull.
  - left. split; [reflexivity|]. split; [apply fresh_unused|]. split; [reflexivity|].
    apply constructed_insert, fresh_unused.
  - destruct (instanceof audioStream AudioInputStream) eqn:Hpush.
    + right; left. repeat split. apply constructed_same.
    + right; right. repeat split. apply constructed_same.
Qed.

(** C2 as stated fails: for a push-style stream object no Producer is
    constructed. The stream of the application held at address 3 passes the
    second test only; the factory leaves the store as it was, with no new
    object in it, and the handle refers to the argument itself. *)
Lemma fromStreamInput_push_constructs_nothing :
  instanceof (JsObject push_stream_chain 3) PullAudioInputStreamCallback = false
  ∧ instanceof (JsObject push_stream_chain 3) AudioInputStream = true
  ∧ AudioConfig.fromStreamInput (JsObject push_stream_chain 3) push_stream_store =
      (Normal {| AudioConfigImpl.source := JsObject push_stream_chain 3 |},
       push_stream_store)
  ∧ constructed push_stream_store
      (AudioConfig.fromStreamInput (JsObject push_stream_chain 3) push_stream_store).2 = ∅
  ∧ ¬ ∃ (l : loc) (o : Object),
        push_stream_store !! l = None
        ∧ (AudioConfig.fromStreamInput (JsObject push_stream_chain 3) push_stream_store).2
            !! l = Some o.
Proof.
  split; [reflexivity|]. split; [reflexivity|]. split; [reflexivity|].
  split; [apply constructed_same|].
  intros (l & o & Hnone & Hsome). simpl in Hsome. congruence.
Qed.

Example fromStreamInput_number :
  AudioConfig.fromStreamInput (T := Object) (JsNumber 7) ∅ = (Throw UnsupportedInputError, ∅).
Proof. reflexivity. Qed.

(** C10. An argument that passes both [instanceof] tests takes the first
    branch: a new [PullAudioInputStreamImpl] is made over it and wrapped, and
    the outcome is not that of the second branch, which wraps the argument
    itself and leaves the store as it was. *)
Theorem fromStreamInput_pull_first (T : Type) (I : Imports T) (audioStream : JsValue)
    (h : gmap loc T) :
  instanceof audioStream PullAudioInputStreamCallback = true →
  instanceof audioStream AudioInputStream = true →
  AudioConfig.fromStreamInput audioStream h =
    (Normal {| AudioConfigImpl.source :=
                 JsObject (PullAudioInputStreamImpl :: ancestors PullAudioInputStreamImpl)
                          (fresh (dom h)) |},
     <[fresh (dom h) := construct PullAudioInputStreamImpl [audioStream] (fresh (dom h))]> h)
  ∧ AudioConfig.fromStreamInput audioStream h ≠
      (Normal {| AudioConfigImpl.source := audioStream |}, h).
Proof.
  intros Hpull _. unfold AudioConfig.fromStreamInput. rewrite Hpull.
  split; [reflexivity|].
  intros Heq. apply (f_equal snd) in Heq. simpl in Heq.
  apply (f_equal (λ m : gmap loc T, m !! fresh (dom h))) in Heq.
  rewrite lookup_insert_eq, fresh_unused in Heq. discriminate.
Qed.

Lemma fromStreamInput_pull_first_witness :
  let h : gmap loc Object := {[ 7%positive := Plain (OtherClass "Hybrid") [] ]} in
  instanceof both_shapes PullAudioInputStreamCallback = true
  ∧ instanceof both_shapes AudioInputStream = true
  ∧ AudioConfig.fromStreamInput both_shapes h =
      (Normal {| AudioConfigImpl.source :=
                   JsObject (PullAudioInputStreamImpl :: ancestors PullAudioInputStreamImpl)
                            (fresh (dom h)) |},
       <[fresh (dom h) := construct PullAudioInputStreamImpl [both_shapes] (fresh (dom h))]> h)
  ∧ AudioConfig.fromStreamInput both_shapes h ≠
      (Normal {| AudioConfigImpl.source := both_shapes |}, h).
Proof.
  intros h. split; [reflexivity|]. split; [reflexivity|].
  exact (fromStreamInput_pull_first Object Object_Imports both_shapes h eq_refl eq_refl).
Defined.

Example fromStreamInput_both_shapes :
  (AudioConfig.fromStreamInput (T := Object) both_shapes
     {[ 7%positive := Plain (OtherClass "Hybrid") [] ]}).1 =
  Normal {| AudioConfigImpl.source := JsObject [PullAudioInputStreamImpl] 8 |}.
Proof. by vm_compute. Qed.

(** C3, as the code has it. [fromWavFileInput] makes no test on its
    argument: for every argument, a [File] or not, it builds one new
    [FileAudioSource] over it, wraps that in a handle and returns; it has no
    throwing path of its own. *)
Theorem fromWavFileInput_wraps_any_argument (T : Type) (I : Imports T) (file : JsValue)
    (h : gmap loc T) :
  let l := fresh (dom h) in
  h !! l = None
  ∧ AudioConfig.fromWavFileInput file h =
      (Normal {| AudioConfigImpl.source :=
                   JsObject (FileAudioSource :: ancestors FileAudioSource) l |},
       <[l := construct FileAudioSource [file] l]> h).
Proof. intros l. split; [apply fresh_unused | reflexivity]. Qed.

(** C3 as stated fails: a number is not a file reference, and the factory
    returns a handle for it instead of throwing. *)
Lemma fromWavFileInput_accepts_a_number :
  instanceof (JsNumber 42) File = false
  ∧ AudioConfig.fromWavFileInput (T := Object) (JsNumber 42) ∅ =
      (Normal {| AudioConfigImpl.source := JsObject [FileAudioSource] 1 |},
       {[ 1%positive :=
            Source (AudioSource.create "source-1" AudioSource.FileReader) ]})
  ∧ (AudioConfig.fromWavFileInput (T := Object) (JsNumber 42) ∅).1
      ≠ Throw UnsupportedInputError.
Proof.
  split; [reflexivity|]. split; by vm_compute.
Qed.

(** ** The wrapper *)

(** C1, on the code. [Detach] hands the call to itself, never to the wrapped
    source: whatever the stack the engine grants, the call ends in the
    engine's [RangeError] with the store as it was, and it never returns.
    On a handle over a running source with the node ["a"] attached the node
    stays registered and the source keeps running, where the forwarding that
    section 4.1 asks for removes the node and stops the source. *)
Theorem Detach_calls_itself :
  (∀ (T : Type) (I : IAudioSource.t T) (stack : nat) (audioNodeId : string)
     (st : AudioConfigImpl.State T),
     AudioConfigImpl.Detach stack audioNodeId st = (Throw stack_exhausted, st))
  ∧ (let st := handle_on [MicAudioSource] 1 mic_running ∅ in
     (∀ stack : nat,
        (AudioConfigImpl.Detach stack "a" st).1 = Throw stack_exhausted
        ∧ AudioSource.state <$> source_at 1 (AudioConfigImpl.Detach stack "a" st).2
          = Some AudioSource.Running
        ∧ AudioSource.registry <$> source_at 1 (AudioConfigImpl.Detach stack "a" st).2
          = Some {[ "a" := {| node_id := "a" |} ]})
     ∧ (AudioConfigImpl.Detach_forwarded "a" st).1 = Normal ()
     ∧ AudioSource.state <$> source_at 1 (AudioConfigImpl.Detach_forwarded "a" st).2
       = Some AudioSource.Stopped
     ∧ AudioSource.registry <$> source_at 1 (AudioConfigImpl.Detach_forwarded "a" st).2
       = Some ∅).
Proof.
  split.
  - intros. apply Detach_unwinds.
  - intros st. split.
    + intros stack. rewrite Detach_unwinds. by vm_compute.
    + by vm_compute.
Qed.

(** C6. Each of [Id], [TurnOn], [Attach], [TurnOff] and [Events], called on
    a handle whose [source] refers to the object [o], returns exactly what
    the like-named member of [o] returns, and the only change to the store
    is the one that member makes to [o]: the fields of the handle and every
    other object stay as they were. *)
Theorem wrapper_forwards (T : Type) (I : IAudioSource.t T) (m : Member)
    (chain : list Class) (l : loc) (o : T) (h : gmap loc T) :
  member m {| AudioConfigImpl.this := {| AudioConfigImpl.source := JsObject chain l |};
              AudioConfigImpl.heap := <[l := o]> h |} =
  ((source_member m o).1,
   {| AudioConfigImpl.this := {| AudioConfigImpl.source := JsObject chain l |};
      AudioConfigImpl.heap := <[l := (source_member m o).2]> h |}).
Proof.
  destruct m; simpl; unfold returning, mbind, M_bind;
    unfold AudioConfigImpl.Id, AudioConfigImpl.TurnOn, AudioConfigImpl.Attach,
      AudioConfigImpl.TurnOff, AudioConfigImpl.Events, mbind, M_bind,
      AudioConfigImpl.this_source;
    cbn [AudioConfigImpl.this AudioConfigImpl.source];
    first [rewrite call_object | rewrite get_object];
    match goal with |- context [?f o] => destruct (f o) as [[r|e] o'] end;
    reflexivity.
Qed.

(** C7. The constructor stores its argument in [source], and no sequence of
    calls of [close], [TurnOn], [TurnOff], [Attach], [Detach], [Id] and
    [Events] changes the field: after the sequence it still holds the value
    the constructor received. *)
Theorem source_never_rebound (T : Type) (I : IAudioSource.t T) (src : JsValue)
    (h : gmap loc T) (stack : nat) (ops : list Op) :
  ∃ cfg : AudioConfigImpl.t,
    AudioConfigImpl.constructor src h = (Normal cfg, h)
    ∧ AudioConfigImpl.source cfg = src
    ∧ AudioConfigImpl.source
        (AudioConfigImpl.this
           (run stack ops {| AudioConfigImpl.this := cfg; AudioConfigImpl.heap := h |}))
      = src.
Proof.
  exists {| AudioConfigImpl.source := src |}.
  split; [reflexivity|]. split; [reflexivity|]. by rewrite run_keeps_this.
Qed.

(** C9. [close] returns [undefined] whatever promise the wrapped [TurnOff]
    returned: on two handles whose [TurnOff] return the promises [p1] and
    [p2], the two calls of [close] complete with the same value, and leave
    the stores [TurnOff] leaves. A rejection with DeactivationError cannot be
    told from success by the caller of [close]. *)
Theorem close_drops_the_promise (T : Type) (I : IAudioSource.t T)
    (st1 st2 st1' st2' : AudioConfigImpl.State T) (p1 p2 : Promise bool) :
  AudioConfigImpl.TurnOff st1 = (Normal p1, st1') →
  AudioConfigImpl.TurnOff st2 = (Normal p2, st2') →
  AudioConfigImpl.close st1 = (Normal (), st1')
  ∧ AudioConfigImpl.close st2 = (Normal (), st2')
  ∧ (AudioConfigImpl.close st1).1 = (AudioConfigImpl.close st2).1.
Proof.
  unfold AudioConfigImpl.TurnOff, AudioConfigImpl.close, mbind, M_bind,
    AudioConfigImpl.this_source.
  intros H1 H2. rewrite H1, H2. by repeat split.
Qed.

Lemma close_drops_the_promise_witness :
  let st1 := handle_on [MicAudioSource] 1 mic_running ∅ in
  let st2 := handle_on [MicAudioSource] 1 mic_stop_fails ∅ in
  AudioConfigImpl.TurnOff st1 = (Normal (Resolved true), (AudioConfigImpl.TurnOff st1).2)
  ∧ AudioConfigImpl.TurnOff st2 =
      (Normal (Rejected DeactivationError), (AudioConfigImpl.TurnOff st2).2)
  ∧ AudioConfigImpl.close st1 = (Normal (), (AudioConfigImpl.TurnOff st1).2)
  ∧ AudioConfigImpl.close st2 = (Normal (), (AudioConfigImpl.TurnOff st2).2)
  ∧ (AudioConfigImpl.close st1).1 = (AudioConfigImpl.close st2).1.
Proof.
  intros st1 st2.
  assert (H1 : AudioConfigImpl.TurnOff st1 =
                 (Normal (Resolved true), (AudioConfigImpl.TurnOff st1).2))
    by (by vm_compute).
  assert (H2 : AudioConfigImpl.TurnOff st2 =
                 (Normal (Rejected DeactivationError), (AudioConfigImpl.TurnOff st2).2))
    by (by vm_compute).
  split; [exact H1|]. split; [exact H2|].
  exact (close_drops_the_promise Object Object_IAudioSource st1 st2 _ _ _ _ H1 H2).
Defined.

(** ** A handle over the audio source of the specification *)

Ltac source_cases a :=
  destruct a as [i s r [k can_start can_stop nstart nstop] ev tr];
  destruct s, can_start, can_stop.

Lemma TurnOff_terminal (a : AudioSource.t) : terminal (AudioSource.TurnOff a).2.
Proof. source_cases a; unfold terminal; simpl; auto. Qed.

Lemma TurnOff_of_terminal (a : AudioSource.t) :
  terminal a → AudioSource.TurnOff a = (Resolved true, a).
Proof.
  unfold terminal, AudioSource.TurnOff. intros [H|H]; by rewrite H.
Qed.

Lemma Attach_of_terminal (n : string) (a : AudioSource.t) :
  terminal a → AudioSource.Attach n a = (Rejected InvalidStateError, a).
Proof.
  unfold terminal, AudioSource.Attach. intros [H|H]; by rewrite H.
Qed.

Lemma TurnOn_of_terminal (a : AudioSource.t) :
  terminal a → AudioSource.TurnOn a = (Rejected InvalidStateError, a).
Proof.
  unfold terminal, AudioSource.TurnOn. intros [H|H]; by rewrite H.
Qed.

Lemma after_terminal (o : Op) (a : AudioSource.t) : terminal a → terminal (after o a).
Proof.
  intros Ht. destruct o as [|n|[| |n| |]]; simpl; try done.
  - by rewrite TurnOff_of_terminal.
  - by rewrite TurnOn_of_terminal.
  - by rewrite Attach_of_terminal.
  - by rewrite TurnOff_of_terminal.
Qed.

Lemma after_sid (o : Op) (a : AudioSource.t) :
  AudioSource.sid (after o a) = AudioSource.sid a.
Proof.
  destruct o as [|n|[| |n| |]]; simpl; try done; source_cases a; reflexivity.
Qed.

Lemma foldl_after_terminal (ops : list Op) (a : AudioSource.t) :
  terminal a → terminal (foldl (λ a o, after o a) a ops).
Proof.
  revert a. induction ops as [|o ops IH]; intros a Ht; [done|].
  simpl. by apply IH, after_terminal.
Qed.

Lemma foldl_after_sid (ops : list Op) (a : AudioSource.t) :
  AudioSource.sid (foldl (λ a o, after o a) a ops) = AudioSource.sid a.
Proof.
  revert a. induction ops as [|o ops IH]; intros a; [done|].
  simpl. by rewrite IH, after_sid.
Qed.

Lemma member_object (T : Type) (I : IAudioSource.t T) (m : Member)
    (cfg : AudioConfigImpl.t) (chain : list Class) (l : loc) (o : T) (h : gmap loc T) :
  AudioConfigImpl.source cfg = JsObject chain l →
  member m {| AudioConfigImpl.this := cfg; AudioConfigImpl.heap := <[l := o]> h |} =
  ((source_member m o).1,
   {| AudioConfigImpl.this := cfg; AudioConfigImpl.heap := <[l := (source_member m o).2]> h |}).
Proof.
  intros Hsrc.
  destruct m; simpl; unfold returning, mbind, M_bind;
    unfold AudioConfigImpl.Id, AudioConfigImpl.TurnOn, AudioConfigImpl.Attach,
      AudioConfigImpl.TurnOff, AudioConfigImpl.Events, mbind, M_bind,
      AudioConfigImpl.this_source;
    cbn [AudioConfigImpl.this]; rewrite Hsrc;
    first [rewrite call_object | rewrite get_object];
    match goal with |- context [?f o] => destruct (f o) as [[r|e] o'] end;
    reflexivity.
Qed.

Lemma close_object (T : Type) (I : IAudioSource.t T)
    (cfg : AudioConfigImpl.t) (chain : list Class) (l : loc) (o : T) (h : gmap loc T) :
  AudioConfigImpl.source cfg = JsObject chain l →
  AudioConfigImpl.close {| AudioConfigImpl.this := cfg; AudioConfigImpl.heap := <[l := o]> h |} =
  (match (IAudioSource.TurnOff o).1 with Normal _ => Normal () | Throw e => Throw e end,
   {| AudioConfigImpl.this := cfg;
      AudioConfigImpl.heap := <[l := (IAudioSource.TurnOff o).2]> h |}).
Proof.
  intros Hsrc.
  unfold AudioConfigImpl.close, mbind, M_bind, AudioConfigImpl.this_source.
  cbn [AudioConfigImpl.this]. rewrite Hsrc, call_object.
  by destruct (IAudioSource.TurnOff o) as [[r|e] o'].
Qed.

Lemma close_handle chain l a h :
  AudioConfigImpl.close (handle_on chain l a h) =
    (Normal (), handle_on chain l (AudioSource.TurnOff a).2 h).
Proof.
  unfold handle_on. rewrite (close_object _ _ _ chain) by reflexivity.
  simpl. by destruct (AudioSource.TurnOff a).
Qed.

Lemma exec_handle stack o chain l a h :
  (exec stack o (handle_on chain l a h)).2 = handle_on chain l (after o a) h.
Proof.
  destruct o as [|n|m].
  - simpl. unfold returning, mbind, M_bind. by rewrite close_handle.
  - simpl. unfold returning, mbind, M_bind. by rewrite Detach_unwinds.
  - unfold exec, handle_on. rewrite (member_object _ _ _ _ chain) by reflexivity.
    destruct m; simpl; unfold returning, mbind, M_bind; simpl;
      try reflexivity;
      match goal with |- context [?f a] => by destruct (f a) end.
Qed.

Lemma run_handle stack ops chain l a h :
  run stack ops (handle_on chain l a h) =
    handle_on chain l (foldl (λ a o, after o a) a ops) h.
Proof.
  revert a. induction ops as [|o ops IH]; intros a; [reflexivity|].
  change (run stack (o :: ops) (handle_on chain l a h))
    with (run stack ops (exec stack o (handle_on chain l a h)).2).
  by rewrite exec_handle, IH.
Qed.

Lemma Attach_handle n chain l a h :
  AudioConfigImpl.Attach n (handle_on chain l a h) =
    (Normal (AudioSource.Attach n a).1, handle_on chain l (AudioSource.Attach n a).2 h).
Proof.
  unfold handle_on, AudioConfigImpl.Attach, mbind, M_bind, AudioConfigImpl.this_source.
  cbn [AudioConfigImpl.this AudioConfigImpl.source]. rewrite call_object.
  simpl. by destruct (AudioSource.Attach n a).
Qed.

Lemma Id_handle chain l a h :
  AudioConfigImpl.Id (handle_on chain l a h) =
    (Normal (AudioSource.sid a), handle_on chain l a h).
Proof.
  unfold handle_on, AudioConfigImpl.Id, mbind, M_bind, AudioConfigImpl.this_source.
  cbn [AudioConfigImpl.this AudioConfigImpl.source]. by rewrite call_object.
Qed.

(** C4. After [close] on a handle over an audio source, the source's
    [TurnOff] has run and the source is Stopped or Faulted; from then on,
    after any further calls on the handle, [Attach] returns a promise
    rejected with InvalidStateError. *)
Theorem close_is_final (chain : list Class) (l : loc) (a : AudioSource.t)
    (h : gmap loc Object) (stack : nat) (ops : list Op) (audioNodeId : string) :
  let closed := (AudioConfigImpl.close (handle_on chain l a h)).2 in
  closed = handle_on chain l (AudioSource.TurnOff a).2 h
  ∧ terminal (AudioSource.TurnOff a).2
  ∧ (AudioConfigImpl.Attach audioNodeId (run stack ops closed)).1
    = Normal (Rejected InvalidStateError).
Proof.
  intros closed. subst closed. rewrite close_handle. cbn [snd].
  split; [reflexivity|]. split; [apply TurnOff_terminal|].
  rewrite run_handle, Attach_handle. cbn [fst].
  by rewrite (Attach_of_terminal _ _ (foldl_after_terminal ops _ (TurnOff_terminal a))).
Qed.

Example close_then_Attach :
  (AudioConfigImpl.Attach "b"
     (run 64 [OpMember MTurnOn; OpDetach "a"; OpMember (MAttach "c")]
        (AudioConfigImpl.close (handle_on [MicAudioSource] 1 mic_running ∅)).2)).1
  = Normal (Rejected InvalidStateError).
Proof. by vm_compute. Qed.

(** C5. On a handle over an audio source, a second [close] right after the
    first returns and leaves the state exactly as the first left it; over
    the two calls the source enters Stopped at most once and its producer
    receives at most one stop. *)
Theorem close_idempotent (chain : list Class) (l : loc) (a : AudioSource.t)
    (h : gmap loc Object) :
  let once := (AudioConfigImpl.close (handle_on chain l a h)).2 in
  let twice := (AudioConfigImpl.close once).2 in
  AudioConfigImpl.close once = (Normal (), once)
  ∧ twice = once
  ∧ ∃ a2 : AudioSource.t,
      twice = handle_on chain l a2 h
      ∧ (entered AudioSource.Stopped a2 ≤ S (entered AudioSource.Stopped a))%nat
      ∧ (AudioSource.stop_calls (AudioSource.producer a2)
         ≤ S (AudioSource.stop_calls (AudioSource.producer a)))%nat.
Proof.
  intros once twice. subst twice once. rewrite !close_handle. cbn [snd].
  rewrite close_handle, (TurnOff_of_terminal _ (TurnOff_terminal a)). cbn [snd].
  split; [reflexivity|]. split; [reflexivity|].
  exists (AudioSource.TurnOff a).2. split; [reflexivity|].
  unfold entered. source_cases a; simpl; rewrite ?filter_cons; simpl; lia.
Qed.

(** C8. Whatever calls were made on a handle over an audio source, [close]
    among them, [Id] returns normally, returns the SourceId the source was
    built with, and leaves the fields of the handle and the store as they
    were. *)
Theorem Id_is_stable (chain : list Class) (l : loc) (a : AudioSource.t)
    (h : gmap loc Object) (stack : nat) (ops : list Op) :
  let st := run stack ops (handle_on chain l a h) in
  AudioConfigImpl.Id st = (Normal (AudioSource.sid a), st).
Proof.
  intros st. subst st. by rewrite run_handle, Id_handle, foldl_after_sid.
Qed.

Example Id_after_close :
  let st := run 64 [OpMember (MAttach "b"); OpClose; OpDetach "a"; OpMember MTurnOn]
              (handle_on [MicAudioSource] 1 mic_running ∅) in
  AudioConfigImpl.Id st = (Normal "mic", st).
Proof. by vm_compute. Qed.

(** From the microphone factory to a closed handle: the recorder is placed at
    address 1 and the source at address 2; a node attaches, the handle is
    closed, and a later [Attach] is rejected. *)
Example microphone_scenario :
  ∃ cfg h,
    AudioConfig.fromDefaultMicrophoneInput (T := Object) ∅ = (Normal cfg, h)
    ∧ AudioConfigImpl.source cfg = JsObject [MicAudioSource] 2
    ∧ let st := {| AudioConfigImpl.this := cfg; AudioConfigImpl.heap := h |} in
      (AudioConfigImpl.Attach "a" st).1 = Normal (Resolved {| node_id := "a" |})
      ∧ (AudioConfigImpl.Attach "b"
           (run 64 [OpMember (MAttach "a"); OpClose] st)).1
        = Normal (Rejected InvalidStateError)
      ∧ (AudioConfigImpl.Id (run 64 [OpMember (MAttach "a"); OpClose] st)).1
        = Normal "source-2".
Proof. eexists _, _. split; [reflexivity|]. by vm_compute. Qed.

(** * Further properties of the factories and of the wrapper *)

(** ** Every call, in terms of the one call it makes on [this.source] *)

Section CallFacts.
Context {T : Type} `{!IAudioSource.t T}.

Lemma close_invoke (st : AudioConfigImpl.State T) :
  AudioConfigImpl.close st =
    (dropped (invoke (AudioConfigImpl.source (AudioConfigImpl.this st)) IAudioSource.TurnOff
                (AudioConfigImpl.heap st)).1,
     {| AudioConfigImpl.this := AudioConfigImpl.this st;
        AudioConfigImpl.heap :=
          (invoke (AudioConfigImpl.source (AudioConfigImpl.this st)) IAudioSource.TurnOff
             (AudioConfigImpl.heap st)).2 |}).
Proof.
  unfold AudioConfigImpl.close, mbind, M_bind, AudioConfigImpl.this_source,
    AudioConfigImpl.call.
  by destruct (invoke _ _ _) as [[r|e] h'].
Qed.

Lemma TurnOff_invoke (st : AudioConfigImpl.State T) :
  AudioConfigImpl.TurnOff st =
    ((invoke (AudioConfigImpl.source (AudioConfigImpl.this st)) IAudioSource.TurnOff
        (AudioConfigImpl.heap st)).1,
     {| AudioConfigImpl.this := AudioConfigImpl.this st;
        AudioConfigImpl.heap :=
          (invoke (AudioConfigImpl.source (AudioConfigImpl.this st)) IAudioSource.TurnOff
             (AudioConfigImpl.heap st)).2 |}).
Proof.
  unfold AudioConfigImpl.TurnOff, mbind, M_bind, AudioConfigImpl.this_source,
    AudioConfigImpl.call.
  by destruct (invoke _ _ _) as [r h'].
Qed.

Lemma run_cons stack (o : Op) ops (st : AudioConfigImpl.State T) :
  run stack (o :: ops) st = run stack ops (exec stack o st).2.
Proof. reflexivity. Qed.

Lemma exec_without_Detach stack stack' (o : Op) (st : AudioConfigImpl.State T) :
  is_Detach o = false → exec stack o st = exec stack' o st.
Proof. by destruct o. Qed.

(** On a source that is a primitive no call reaches an object: the methods
    throw, the read of [Events] throws on [undefined] and [null] and gives
    [undefined] on a number or a string, and the state stays as it was. *)
Lemma exec_primitive stack (o : Op) (st : AudioConfigImpl.State T) :
  address (AudioConfigImpl.source (AudioConfigImpl.this st)) = None →
  exec stack o st =
    (match o with
     | OpDetach _ => Throw stack_exhausted
     | OpMember MEvents =>
         if nullish (AudioConfigImpl.source (AudioConfigImpl.this st))
         then Throw TypeError else Normal VUndefined
     | _ => Throw TypeError
     end, st).
Proof.
  destruct st as [[v] h]. simpl. intros Hprim.
  destruct o as [|n|m].
  - destruct v; try discriminate; reflexivity.
  - simpl. unfold returning, mbind, M_bind. by rewrite Detach_unwinds.
  - destruct v; try discriminate; destruct m; reflexivity.
Qed.

End CallFacts.

(** ** The factories and the store *)

Section FactoryFacts.
Context {T : Type} `{!Imports T}.


End FactoryFacts.


(** X4. The handle [fromStreamInput] returns for a push-style stream shares
    the caller's stream object: the store is left as it was, and a member
    called on the handle completes as the like-named member of the object
    the argument refers to and updates that very object. *)
Theorem fromStreamInput_push_handle_shares_the_stream (T : Type) (I : IAudioSource.t T)
    (J : Imports T) (m : Member) (chain : list Class) (l : loc) (o : T)
    (h : gmap loc T) :
  instanceof (JsObject chain l) PullAudioInputStreamCallback = false →
  instanceof (JsObject chain l) AudioInputStream = true →
  h !! l = Some o →
  ∃ cfg,
    AudioConfig.fromStreamInput (JsObject chain l) h = (Normal cfg, h)
    ∧ member m {| AudioConfigImpl.this := cfg; AudioConfigImpl.heap := h |} =
        ((source_member m o).1,
         {| AudioConfigImpl.this := cfg;
            AudioConfigImpl.heap := <[l := (source_member m o).2]> h |}).
Proof.
  intros Hpull Hpush Hl. exists {| AudioConfigImpl.source := JsObject chain l |}.
  split.
  - unfold AudioConfig.fromStreamInput. by rewrite Hpull, Hpush.
  - pose proof (member_object T I m {| AudioConfigImpl.source := JsObject chain l |}
                  chain l o h eq_refl) as Hm.
    by rewrite (insert_id h l o Hl) in Hm.
Qed.

Lemma fromStreamInput_push_handle_shares_the_stream_witness :
  instanceof (JsObject push_stream_chain 3) PullAudioInputStreamCallback = false
  ∧ instanceof (JsObject push_stream_chain 3) AudioInputStream = true
  ∧ push_stream_store !! 3%positive =
      Some (Source (AudioSource.create "push" AudioSource.PushStream))
  ∧ ∃ cfg,
      AudioConfig.fromStreamInput (JsObject push_stream_chain 3) push_stream_store =
        (Normal cfg, push_stream_store)
      ∧ member MTurnOn
          {| AudioConfigImpl.this := cfg; AudioConfigImpl.heap := push_stream_store |} =
          ((source_member MTurnOn
              (Source (AudioSource.create "push" AudioSource.PushStream))).1,
           {| AudioConfigImpl.this := cfg;
              AudioConfigImpl.heap :=
                <[3%positive :=
                    (source_member MTurnOn
                       (Source (AudioSource.create "push" AudioSource.PushStream))).2]>
                  push_stream_store |}).
Proof.
  split; [reflexivity|]. split; [reflexivity|]. split; [reflexivity|].
  exact (fromStreamInput_push_handle_shares_the_stream Object _ _ MTurnOn
           push_stream_chain 3 _ push_stream_store eq_refl eq_refl eq_refl).
Defined.

(** ** The wrapper over sequences of calls *)

(** X8. On every handle and store, [close] does to the store exactly what
    [TurnOff] does, and completes as [TurnOff] does with the promise
    dropped: it returns [undefined] where [TurnOff] returns, and throws the
    same error where [TurnOff] throws. *)
Theorem close_is_TurnOff_without_result (T : Type) (I : IAudioSource.t T)
    (st : AudioConfigImpl.State T) :
  AudioConfigImpl.close st =
    (dropped (AudioConfigImpl.TurnOff st).1, (AudioConfigImpl.TurnOff st).2).
Proof. by rewrite close_invoke, TurnOff_invoke. Qed.


(** X10. Calls of [Detach] leave no trace: the state after a sequence of
    calls is the state after the same sequence with the [Detach] calls taken
    out, whatever stack the engine grants to either run. *)
Theorem Detach_calls_leave_no_trace (T : Type) (I : IAudioSource.t T)
    (stack stack' : nat) (ops : list Op) (st : AudioConfigImpl.State T) :
  run stack ops st = run stack' (filter (λ o, is_Detach o = false) ops) st.
Proof.
  revert st. induction ops as [|o ops IH]; intros st; [reflexivity|].
  rewrite filter_cons, run_cons. case_decide as Hd.
  - rewrite run_cons, (exec_without_Detach stack stack' o st Hd). apply IH.
  - destruct o as [|n|m]; try done. simpl. unfold returning, mbind, M_bind.
    rewrite Detach_unwinds. apply IH.
Qed.

(** X11. The constructor takes any value. On a handle whose [source] is a
    primitive no sequence of calls changes the state, and every call
    completes by the kind of the value alone: [close], [Id], [TurnOn],
    [Attach] and [TurnOff] throw [TypeError], [Detach] ends in the engine's
    [RangeError], and the read of [Events] throws [TypeError] on [undefined]
    and [null] and gives [undefined] on a number and on a string. *)
Theorem handle_without_object_is_inert (T : Type) (I : IAudioSource.t T)
    (stack : nat) (ops : list Op) (st : AudioConfigImpl.State T) :
  address (AudioConfigImpl.source (AudioConfigImpl.this st)) = None →
  run stack ops st = st
  ∧ outcomes stack ops st =
      (λ o, match o with
            | OpDetach _ => Throw stack_exhausted
            | OpMember MEvents =>
                if nullish (AudioConfigImpl.source (AudioConfigImpl.this st))
                then Throw TypeError else Normal VUndefined
            | _ => Throw TypeError
            end) <$> ops.
Proof.
  intros Hprim. induction ops as [|o ops IH]; [by split|].
  rewrite run_cons, fmap_cons. cbn [outcomes].
  rewrite (exec_primitive stack o st Hprim). cbn [fst snd].
  destruct IH as [IH1 IH2]. split; [exact IH1 | by rewrite IH2].
Qed.

Lemma handle_without_object_is_inert_witness :
  address (AudioConfigImpl.source (AudioConfigImpl.this handle_on_number)) = None
  ∧ run 8 [OpMember MId; OpMember MEvents; OpClose; OpDetach "a"; OpMember (MAttach "a")]
      handle_on_number = handle_on_number
  ∧ outcomes 8 [OpMember MId; OpMember MEvents; OpClose; OpDetach "a"; OpMember (MAttach "a")]
      handle_on_number =
      (λ o, match o with
            | OpDetach _ => Throw stack_exhausted
            | OpMember MEvents =>
                if nullish (AudioConfigImpl.source (AudioConfigImpl.this handle_on_number))
                then Throw TypeError else Normal VUndefined
            | _ => Throw TypeError
            end)
      <$> [OpMember MId; OpMember MEvents; OpClose; OpDetach "a"; OpMember (MAttach "a")].
Proof.
  split; [reflexivity|].
  exact (handle_without_object_is_inert Object _ 8
           [OpMember MId; OpMember MEvents; OpClose; OpDetach "a"; OpMember (MAttach "a")]
           handle_on_number eq_refl).
Defined.

(** On the number 42 the read of [Events] gives [undefined]; on [null] it
    throws, as every call does. *)
Example Events_on_primitives :
  (AudioConfigImpl.Events handle_on_number).1 = Normal None
  ∧ (AudioConfigImpl.Events
       {| AudioConfigImpl.this := {| AudioConfigImpl.source := JsNull |};
          AudioConfigImpl.heap := (∅ : gmap loc Object) |}).1 = Throw TypeError
  ∧ (AudioConfigImpl.TurnOff handle_on_number).1 = Throw TypeError
  ∧ (AudioConfigImpl.Events
       {| AudioConfigImpl.this := {| AudioConfigImpl.source := JsObject [File] 5 |};
          AudioConfigImpl.heap := {[ 5%positive := Plain File [] ]} |}).1 = Normal None.
Proof. by vm_compute. Qed.

(** X12. [fromStreamInput] throws [Error("Not Supported Type")] and leaves
    the store as it was for every value that is neither kind of stream: a
    primitive ([undefined], [null], a number, a string), and an object
    whose prototype chain holds neither [PullAudioInputStreamCallback] nor
    [AudioInputStream]. *)
Theorem fromStreamInput_rejects_unrelated_values (T : Type) (I : Imports T)
    (audioStream : JsValue) (h : gmap loc T) :
  (∀ chain l, audioStream = JsObject chain l →
     (PullAudioInputStreamCallback ∉ chain) ∧ (AudioInputStream ∉ chain)) →
  AudioConfig.fromStreamInput audioStream h = (Throw (Error "Not Supported Type"), h).
Proof.
  intros Hun. unfold AudioConfig.fromStreamInput.
  destruct audioStream as [| | | |chain l]; try reflexivity.
  destruct (Hun chain l eq_refl) as [Hpull Hpush]. simpl.
  by rewrite !bool_decide_eq_false_2.
Qed.

Lemma fromStreamInput_rejects_unrelated_values_witness :
  (∀ chain l, JsObject [File] 5 = JsObject chain l →
     (PullAudioInputStreamCallback ∉ chain) ∧ (AudioInputStream ∉ chain))
  ∧ AudioConfig.fromStreamInput (T := Object) (JsObject [File] 5)
      {[ 5%positive := Plain File [] ]} =
    (Throw (Error "Not Supported Type"), {[ 5%positive := Plain File [] ]}).
Proof.
  assert (Hun : ∀ chain l, JsObject [File] 5 = JsObject chain l →
                  (PullAudioInputStreamCallback ∉ chain) ∧ (AudioInputStream ∉ chain)).
  { intros chain l Heq. injection Heq as <- <-.
    split; intros Hin; apply list_elem_of_singleton in Hin; discriminate Hin. }
  split; [exact Hun|].
  exact (fromStreamInput_rejects_unrelated_values Object _ (JsObject [File] 5)
           {[ 5%positive := Plain File [] ]} Hun).
Defined.
